(** * chattybackend: the server bootstrap of [src/app.ts] and [src/setupServer.ts]

    A shallow embedding of [ChattyServer]: the middleware stack that
    [start] registers on the Express application, the way Express walks
    that stack for one request, the two handlers of [globalErrorHandler],
    and the asynchronous start-up sequence of [startServer]. *)

From Stdlib Require Import List String ZArith Bool Lia DecimalString.
Import ListNotations.
Open Scope string_scope.
Open Scope Z_scope.
Open Scope list_scope.

Set Warnings "-register-all".

(** ** Values that cross the wire *)

(** The constants of the [http-status-codes] package that the code names. *)
Module HTTP_STATUS.
Definition OK : Z := 200.
Definition NOT_FOUND : Z := 404.
Definition INTERNAL_SERVER_ERROR : Z := 500.
End HTTP_STATUS.

Inductive Json : Type :=
| JNull
| JBool (b : bool)
| JNum (n : Z)
| JStr (s : string)
| JArr (items : list Json)
| JObj (fields : list (string * Json)).

(** An instance of [CustomError] (declared in
    [shared/globals/helpers/error-handler], which the handler only uses
    through [statusCode] and [serializeErrors()]): the status code the
    error declares, the value its [serializeErrors()] returns, and the
    [message] and [stack] every JavaScript [Error] carries. *)
Record CustomError : Type := {
  statusCode : Z;
  serializeErrors : Json;
  customMessage : string;
  customStack : string
}.

(** What a handler can throw, or pass to [next]: the [error] parameter of
    the error middleware.  [error instanceof CustomError] tells the two
    constructors apart.  Errors of other libraries may carry a [status]
    of their own (the body parsers do). *)
Inductive Thrown : Type :=
| IsCustom (e : CustomError)
| NotCustom (message stack : string) (status : option Z).

Definition instanceofCustomError (error : Thrown) : bool :=
  match error with
  | IsCustom _ => true
  | NotCustom _ _ _ => false
  end.

Record Request : Type := {
  method : string;
  originalUrl : string
}.

(** The body a client receives.  [CannotPage] and [ErrorPage] stand for the
    two pages Express renders by itself when the stack is exhausted:
    "Cannot METHOD path", from the method and URL of the request, and the
    page made from a failure nobody handled.  [EmptyBody] is a response
    ended with nothing written. *)
Inductive Body : Type :=
| JsonBody (j : Json)
| CannotPage (meth url : string)
| ErrorPage (error : Thrown)
| EmptyBody.

Record Response : Type := {
  status : Z;
  body : Body
}.

(** The bunyan logger [log = config.createLogger('server')]. *)
Inductive LogEntry : Type :=
| LogError (error : Thrown)
| LogInfo (msg : string).

(** ** Configuration and middleware options *)

(** [config]: every field is [string | undefined] in the source (hence the
    [!] on the two keys). *)
Record Config : Type := {
  SECRET_KEY_ONE : option string;
  SECRET_KEY_TWO : option string;
  NODE_ENV : option string;
  CLIENT_URL : option string;
  REDIS_HOST : option string
}.

Record CookieSessionOptions : Type := {
  name : string;
  keys : list (option string);
  maxAge : Z;
  secure : bool
}.

Record CorsOptions : Type := {
  origin : option string;
  credentials : option bool;
  optionsSuccessStatus : option Z;
  methods : list string
}.

Record BodyParserOptions : Type := {
  extended : option bool;
  limit : string
}.

(** The middleware functions the packages hand back, named by the factory
    call that made them. *)
Inductive Middleware : Type :=
| cookieSession (o : CookieSessionOptions)
| hpp
| helmet
| cors (o : CorsOptions)
| compression
| json (o : BodyParserOptions)
| urlencoded (o : BodyParserOptions).

(** ** The Express application *)

(** What middleware hangs on [req] and [res] while a request travels
    ([req.session], [req.body], response headers, ...): a property bag. *)
Definition ReqState : Type := list (string * Json).

(** How a handler leaves: it ends the response, or control goes on with
    [next()] / [next(err)]; a [throw] or a rejected promise counts as
    [next(err)] (that is what [express-async-errors] is imported for). *)
Inductive Outcome : Type :=
| Send (r : Response)
| Next (err : option Thrown).

Definition RequestHandler : Type := Request -> ReqState -> ReqState * Outcome.


(** A route registered by [applicationRoutes]: when it applies, and what it
    does. *)
Record RouteSpec : Type := {
  matches : Request -> bool;
  handler : RequestHandler
}.

(** One entry of the application's router stack. *)
Inductive Layer : Type :=
| Use (m : Middleware)
| Route (r : RouteSpec)
| All (path : string) (h : Request -> Outcome)
| UseError (h : Thrown -> Request -> list LogEntry * Outcome).

Definition Application : Type := list Layer.

Definition app_use (app : Application) (m : Middleware) : Application :=
  app ++ [Use m].

Definition app_all (app : Application) (path : string)
    (h : Request -> Outcome) : Application :=
  app ++ [All path h].

Definition app_use_error (app : Application)
    (h : Thrown -> Request -> list LogEntry * Outcome) : Application :=
  app ++ [UseError h].

(** What one request produced: the layers whose handler ran, in order,
    what went to the server log, and the response. *)
Record Handled : Type := {
  visited : list Layer;
  logged : list LogEntry;
  response : Response
}.

Definition ran (l : Layer) (r : Handled) : Handled :=
  {| visited := l :: visited r; logged := logged r; response := response r |}.

Definition wrote (entries : list LogEntry) (r : Handled) : Handled :=
  {| visited := visited r; logged := entries ++ logged r;
     response := response r |}.

Definition ended (r : Response) : Handled :=
  {| visited := []; logged := []; response := r |}.

(** What Express does when the stack is exhausted (its [finalhandler]):
    without a pending error, 404 and the "Cannot METHOD path" page; with
    one, the status the error carries when that is a 4xx or 5xx, else 500,
    and the error page. *)
Definition errorStatus (error : Thrown) : Z :=
  let own := match error with
             | IsCustom e => Some (statusCode e)
             | NotCustom _ _ s => s
             end in
  match own with
  | Some s => if (400 <=? s) && (s <? 600) then s
              else HTTP_STATUS.INTERNAL_SERVER_ERROR
  | None => HTTP_STATUS.INTERNAL_SERVER_ERROR
  end.

Definition finalhandler (err : option Thrown) (req : Request) : Response :=
  match err with
  | None => {| status := HTTP_STATUS.NOT_FOUND;
               body := CannotPage (method req) (originalUrl req) |}
  | Some error => {| status := errorStatus error; body := ErrorPage error |}
  end.

(** Express path patterns: ["*"] matches every path; it is the only pattern
    of the source, and any other is taken literally here. *)
Definition pathMatches (path : string) (req : Request) : bool :=
  (path =? "*")%string || (path =? originalUrl req)%string.

Section Dispatch.

(** The behaviour of the middleware of the packages. *)
Variable run : Middleware -> RequestHandler.

Definition continue (next : option Thrown -> Handled) (o : Outcome)
    : Handled :=
  match o with
  | Send r => ended r
  | Next err => next err
  end.

(** The router's [next(err)]: walk the rest of the stack.  With an error
    pending only error middleware (four parameters) runs, without one
    only the others; a route runs when it matches. *)
Fixpoint next (stack : list Layer) (req : Request) (st : ReqState)
    (layerError : option Thrown) : Handled :=
  match stack with
  | [] => ended (finalhandler layerError req)
  | layer :: stack' =>
      match layer, layerError with
      | Use m, None =>
          let (st', o) := run m req st in
          ran layer (continue (next stack' req st') o)
      | Route r, None =>
          if matches r req then
            let (st', o) := handler r req st in
            ran layer (continue (next stack' req st') o)
          else next stack' req st None
      | All path h, None =>
          if pathMatches path req then
            ran layer (continue (next stack' req st) (h req))
          else next stack' req st None
      | UseError h, Some error =>
          let (entries, o) := h error req in
          ran layer (wrote entries (continue (next stack' req st) o))
      | Use _, Some _ | Route _, Some _ | All _ _, Some _ =>
          next stack' req st layerError
      | UseError _, None => next stack' req st None
      end
  end.

(** [app.handle(req, res)]. *)
Definition handle (app : Application) (req : Request) (st : ReqState)
    : Handled :=
  next app req st None.

(** The middleware of a list all let the request through: each calls
    [next()] without an error, from the state the one before left. *)
Fixpoint letThrough (ms : list Middleware) (req : Request) (st : ReqState)
    : option ReqState :=
  match ms with
  | [] => Some st
  | m :: ms' =>
      match run m req st with
      | (st', Next None) => letThrough ms' req st'
      | _ => None
      end
  end.

End Dispatch.

(** ** The world the start-up sequence acts on *)

Definition Handle : Type := nat.

(** What start-up does to the outside, in the order it happens.  [Listen]
    is the call of [listen]; [Uncaught] is an ['error'] event nobody
    listens for, which Node throws as an uncaught exception: the process
    aborts. *)
Inductive Event : Type :=
| NewHttpServer (httpServer : Handle) (app : Application)
| NewIoServer (io httpServer : Handle) (o : CorsOptions)
| CreateClient (client : Handle) (url : option string)
| Duplicate (client original : Handle)
| Connect (client : Handle)
| Connected (clients : list Handle)
| CreateAdapter (adapter pubClient subClient : Handle)
| IoAdapter (io adapter : Handle)
| Listen (httpServer : Handle) (port : Z)
| Uncaught (error : Thrown)
| Log (entry : LogEntry).

(** The calls into the packages that may throw. *)
Inductive Call : Type :=
| CallNewHttpServer
| CallNewIoServer
| CallCreateClient
| CallDuplicate
| CallCreateAdapter
| CallIoAdapter.

(** What the outside decides: which call throws, how the promise of each
    [connect()] settles ([None]: fulfilled), which of two rejections comes
    first, how binding the port ends ([None]: the server listens; a taken
    port is [Some]), and the process id. *)
Record Env : Type := {
  throws : Call -> option Thrown;
  connects : Handle -> option Thrown;
  secondRejectsFirst : bool;
  binds : option Thrown;
  pid : Z
}.

Record World : Type := {
  fresh : Handle;
  events : list Event
}.

Inductive Completion (A : Type) : Type :=
| Returned (a : A)
| Threw (error : Thrown).

Arguments Returned {A} a.
Arguments Threw {A} error.

(** Code that acts on the world and may throw; an [async] function is the
    same thing, its rejection being the [Threw]. *)
Definition M (A : Type) : Type := Env -> World -> World * Completion A.

Definition ret {A : Type} (a : A) : M A := fun _ w => (w, Returned a).

Definition bind {A B : Type} (m : M A) (k : A -> M B) : M B :=
  fun env w =>
    match m env w with
    | (w', Returned a) => k a env w'
    | (w', Threw error) => (w', Threw error)
    end.

Notation "x <- m ;; k" := (bind m (fun x => k))
  (at level 61, m at next level, right associativity).
Notation "m ;; k" := (bind m (fun _ => k))
  (at level 61, right associativity).

Definition throw {A : Type} (error : Thrown) : M A :=
  fun _ w => (w, Threw error).

(** [try { body } catch (error) { h(error) }]. *)
Definition tryCatch {A : Type} (body : M A) (h : Thrown -> M A) : M A :=
  fun env w =>
    match body env w with
    | (w', Returned a) => (w', Returned a)
    | (w', Threw error) => h error env w'
    end.

Definition emit (e : Event) : M unit :=
  fun _ w => ({| fresh := fresh w; events := events w ++ [e] |}, Returned tt).

Definition allocate : M Handle :=
  fun _ w => ({| fresh := S (fresh w); events := events w |},
              Returned (fresh w)).

Definition ask : M Env := fun env w => (w, Returned env).

(** A constructor or factory of a package: it throws, or a new object
    exists and the event says how it was made. *)
Definition construct (c : Call) (made : Handle -> Event) : M Handle :=
  env <- ask;;
  match throws env c with
  | Some error => throw error
  | None => h <- allocate;; emit (made h);; ret h
  end.

(** A method of a package that makes nothing new: it throws, or it has
    happened. *)
Definition invoke (c : Call) (done : Event) : M unit :=
  env <- ask;;
  match throws env c with
  | Some error => throw error
  | None => emit done
  end.

(** A promise, by the way it settles. *)
Definition Promise : Type := option Thrown.

(** [client.connect()]: the attempt starts now and the promise settles
    later. *)
Definition connect (client : Handle) : M Promise :=
  env <- ask;;
  emit (Connect client);;
  ret (connects env client).

(** [await Promise.all([p, q])]: resumes when both are fulfilled, throws
    the reason of the first rejection. *)
Definition awaitAll (clients : Handle * Handle) (p q : Promise) : M unit :=
  env <- ask;;
  match p, q with
  | None, None => emit (Connected [fst clients; snd clients])
  | Some error, None | None, Some error => throw error
  | Some error1, Some error2 =>
      throw (if secondRejectsFirst env then error2 else error1)
  end.

Definition log_error (error : Thrown) : M unit := emit (Log (LogError error)).
Definition log_info (msg : string) : M unit := emit (Log (LogInfo msg)).

(** A number turned into text by [+] on a string. *)
Definition numberToString (n : Z) : string :=
  NilZero.string_of_int (Z.to_int n).

(** ** ChattyServer *)

Definition SERVER_PORT : Z := 5000.

(** [a !== b] for [a : string | undefined] and a string literal [b]. *)
Definition strictNotEqual (a : option string) (b : string) : bool :=
  match a with
  | Some s => negb (s =? b)%string
  | None => true
  end.

(** The handler of [app.all('*', ...)]. *)
Definition notFoundHandler (req : Request) : Outcome :=
  Send {| status := HTTP_STATUS.NOT_FOUND;
          body := JsonBody
                    (JObj [("message",
                            JStr (originalUrl req ++ " not found")%string)]) |}.

(** The error middleware [(error, _req, res, next) => ...]. *)
Definition errorMiddleware (error : Thrown) (_req : Request)
    : list LogEntry * Outcome :=
  ([LogError error],
   match error with
   | IsCustom e =>
       Send {| status := statusCode e; body := JsonBody (serializeErrors e) |}
   | NotCustom _ _ _ => Next None
   end).

Section ChattyServer.

Variable config : Config.

(** The routes [applicationRoutes(app)] registers ([./routes]). *)
Variable routes : list RouteSpec.

Definition sessionOptions : CookieSessionOptions :=
  {| name := "session";
     keys := [SECRET_KEY_ONE config; SECRET_KEY_TWO config];
     maxAge := 24 * 7 * 3600000;
     secure := strictNotEqual (NODE_ENV config) "development" |}.

Definition corsOptions : CorsOptions :=
  {| origin := CLIENT_URL config;
     credentials := Some true;
     optionsSuccessStatus := Some 200;
     methods := ["GET"; "POST"; "DELETE"; "OPTIONS"] |}.

Definition securityMiddleware (app : Application) : Application :=
  let app := app_use app (cookieSession sessionOptions) in
  let app := app_use app hpp in
  let app := app_use app helmet in
  app_use app (cors corsOptions).

Definition standardMiddleware (app : Application) : Application :=
  let app := app_use app compression in
  let app := app_use app (json {| extended := None; limit := "50mb" |}) in
  app_use app (urlencoded {| extended := Some true; limit := "50mb" |}).

Definition applicationRoutes (app : Application) : Application :=
  app ++ map Route routes.

Definition routeMiddleware (app : Application) : Application :=
  applicationRoutes app.

Definition globalErrorHandler (app : Application) : Application :=
  let app := app_all app "*" notFoundHandler in
  app_use_error app errorMiddleware.

Definition ioCorsOptions : CorsOptions :=
  {| origin := CLIENT_URL config;
     credentials := None;
     optionsSuccessStatus := None;
     methods := ["GET"; "POST"; "DELETE"; "OPTIONS"] |}.

Definition createSocketIO (httpServer : Handle) : M Handle :=
  io <- construct CallNewIoServer
          (fun io => NewIoServer io httpServer ioCorsOptions);;
  pubClient <- construct CallCreateClient
                 (fun c => CreateClient c (REDIS_HOST config));;
  subClient <- construct CallDuplicate (fun c => Duplicate c pubClient);;
  p <- connect pubClient;;
  q <- connect subClient;;
  awaitAll (pubClient, subClient) p q;;
  adapter <- construct CallCreateAdapter
               (fun a => CreateAdapter a pubClient subClient);;
  invoke CallIoAdapter (IoAdapter io adapter);;
  ret io.

(** [httpServer.listen(port, callback)].  The call returns at once and
    never throws here; what it started ends later, when nothing of
    [startServer] is left to run.  If the port is bound the callback runs.
    If it is not, the server emits ['error']; the source registers no
    listener for it, so it is thrown outside every [try]: nothing catches
    it, nothing logs it, and the callback never runs. *)
Definition listen (httpServer : Handle) (port : Z) (callback : M unit)
    : M unit :=
  emit (Listen httpServer port);;
  env <- ask;;
  match binds env with
  | None => callback
  | Some error => emit (Uncaught error)
  end.

Definition startHttpServer (httpServer : Handle) : M unit :=
  env <- ask;;
  log_info ("Server has started with process " ++ numberToString (pid env));;
  listen httpServer SERVER_PORT
    (log_info ("Server running on port" ++ numberToString SERVER_PORT)).

Definition socketIOConnections (io : Handle) : M unit := ret tt.

Definition startServer (app : Application) : M unit :=
  tryCatch
    (httpServer <- construct CallNewHttpServer
                     (fun h => NewHttpServer h app);;
     socketIO <- createSocketIO httpServer;;
     startHttpServer httpServer;;
     socketIOConnections socketIO)
    (fun error => log_error error).

(** [start()]: the stack it leaves on the application, and the start-up it
    sets off. *)
Definition stack (app : Application) : Application :=
  let app := securityMiddleware app in
  let app := standardMiddleware app in
  let app := routeMiddleware app in
  globalErrorHandler app.

Definition start (app : Application) : M unit :=
  startServer (stack app).

End ChattyServer.

(** [express()]: an application with nothing registered yet. *)
Definition express : Application := [].

(** [Application.initialize()] of [app.ts], once [config.validateConfig()]
    and [databaseConnection()] are behind it: a fresh Express application
    is handed to a [ChattyServer], which is started. *)
Definition initialize (config : Config) (routes : list RouteSpec) : M unit :=
  start config routes express.

(** The process as it begins: nothing made, nothing done. *)
Definition boot : World := {| fresh := 0%nat; events := [] |}.

(** ** Vocabulary of the statements *)

(** The chains the two registration methods leave on the stack, as lists:
    [securityMiddleware_registers] and [standardMiddleware_registers] tie
    them to the methods. *)
Definition securityGate (config : Config) : list Middleware :=
  [cookieSession (sessionOptions config); hpp; helmet;
   cors (corsOptions config)].

Definition standardChain : list Middleware :=
  [compression;
   json {| extended := None; limit := "50mb" |};
   urlencoded {| extended := Some true; limit := "50mb" |}].

(** Error middleware is the middleware with four parameters. *)
Definition isErrorLayer (l : Layer) : bool :=
  match l with
  | UseError _ => true
  | _ => false
  end.

Definition isListen (e : Event) : bool :=
  match e with
  | Listen _ _ => true
  | _ => false
  end.


Definition makesClient (e : Event) : bool :=
  match e with
  | CreateClient _ _ | Duplicate _ _ => true
  | _ => false
  end.

(** The handles of the two backbone clients: the third and the fourth
    object start-up makes, after the HTTP server and the event-channel
    server. *)
Definition pubClientOf (w : World) : Handle := S (S (fresh w)).
Definition subClientOf (w : World) : Handle := S (S (S (fresh w))).

(** Some step of start-up fails: a call throws, or one of the two
    connection attempts is rejected. *)
Definition startupFails (env : Env) (w : World) : Prop :=
  (exists c, throws env c <> None)
  \/ connects env (pubClientOf w) <> None
  \/ connects env (subClientOf w) <> None.

(** What a start-up does in which no call throws and both connections are
    made, [h] being the first free handle and [bound] the way binding the
    port ends; [startServer_runs] shows it is what [startServer] does. *)
Definition startupEvents (config : Config) (app : Application)
    (processId : Z) (bound : option Thrown) (h : Handle) : list Event :=
  [NewHttpServer h app;
   NewIoServer (1 + h) h (ioCorsOptions config);
   CreateClient (2 + h) (REDIS_HOST config);
   Duplicate (3 + h) (2 + h);
   Connect (2 + h);
   Connect (3 + h);
   Connected [2 + h; 3 + h]%nat;
   CreateAdapter (4 + h) (2 + h) (3 + h);
   IoAdapter (1 + h) (4 + h);
   Log (LogInfo ("Server has started with process "
                 ++ numberToString processId));
   Listen h SERVER_PORT;
   match bound with
   | None =>
       Log (LogInfo ("Server running on port" ++ numberToString SERVER_PORT))
   | Some error => Uncaught error
   end]%nat.

Definition isLog (e : Event) : bool :=
  match e with
  | Log _ => true
  | _ => false
  end.

Definition isConnect (e : Event) : bool :=
  match e with
  | Connect _ => true
  | _ => false
  end.

(** Where start-up stops, read off the order of the calls in
    [startServer] and [createSocketIO]: how many of [startupEvents] were
    done when the first failure came, and that failure; [None] when nothing
    fails.  Two rejected connections give the reason of the one rejected
    first.  [startServer_stops] shows [startServer] does just that. *)
Definition failurePoint (env : Env) (w : World) : option (nat * Thrown) :=
  match throws env CallNewHttpServer with
  | Some error => Some (0%nat, error)
  | None =>
  match throws env CallNewIoServer with
  | Some error => Some (1%nat, error)
  | None =>
  match throws env CallCreateClient with
  | Some error => Some (2%nat, error)
  | None =>
  match throws env CallDuplicate with
  | Some error => Some (3%nat, error)
  | None =>
  match connects env (pubClientOf w), connects env (subClientOf w) with
  | Some error1, Some error2 =>
      Some (6%nat, if secondRejectsFirst env then error2 else error1)
  | Some error, None | None, Some error => Some (6%nat, error)
  | None, None =>
  match throws env CallCreateAdapter with
  | Some error => Some (7%nat, error)
  | None =>
  match throws env CallIoAdapter with
  | Some error => Some (8%nat, error)
  | None => None
  end end end end end end end.

(** The layer whose handler ran last for a request: the one that ended the
    response, or after which the stack was exhausted. *)
Definition lastRan (l : Layer) (r : Handled) : Prop :=
  exists front, visited r = front ++ [l].

(** The ways a request to the application ends. *)
Inductive Settled (run : Middleware -> RequestHandler) (req : Request)
    (r : Handled) : Prop :=
| ByMiddleware (m : Middleware) (st st' : ReqState) :
    lastRan (Use m) r -> run m req st = (st', Send (response r)) ->
    logged r = [] -> Settled run req r
| ByRoute (rt : RouteSpec) (st st' : ReqState) :
    lastRan (Route rt) r -> matches rt req = true ->
    handler rt req st = (st', Send (response r)) ->
    logged r = [] -> Settled run req r
| ByCatchAll :
    lastRan (All "*" notFoundHandler) r ->
    notFoundHandler req = Send (response r) ->
    logged r = [] -> Settled run req r
| ByCustomError (e : CustomError) :
    lastRan (UseError errorMiddleware) r ->
    response r
    = {| status := statusCode e; body := JsonBody (serializeErrors e) |} ->
    logged r = [LogError (IsCustom e)] -> Settled run req r
| ByFallThrough (error : Thrown) :
    instanceofCustomError error = false ->
    lastRan (UseError errorMiddleware) r ->
    response r = finalhandler None req ->
    logged r = [LogError error] -> Settled run req r.

(** The five ways by name, and what each means for a handled request. *)
Inductive Ending : Type :=
| EndedByMiddleware
| EndedByRoute
| EndedByCatchAll
| EndedByCustomError
| EndedByFallThrough.

Definition SettledAs (run : Middleware -> RequestHandler) (req : Request)
    (r : Handled) (k : Ending) : Prop :=
  match k with
  | EndedByMiddleware =>
      exists m st st',
        lastRan (Use m) r /\ run m req st = (st', Send (response r))
        /\ logged r = []
  | EndedByRoute =>
      exists rt st st',
        lastRan (Route rt) r /\ matches rt req = true
        /\ handler rt req st = (st', Send (response r))
        /\ logged r = []
  | EndedByCatchAll =>
      lastRan (All "*" notFoundHandler) r
      /\ notFoundHandler req = Send (response r)
      /\ logged r = []
  | EndedByCustomError =>
      exists e,
        lastRan (UseError errorMiddleware) r
        /\ response r
           = {| status := statusCode e;
                body := JsonBody (serializeErrors e) |}
        /\ logged r = [LogError (IsCustom e)]
  | EndedByFallThrough =>
      exists error,
        instanceofCustomError error = false
        /\ lastRan (UseError errorMiddleware) r
        /\ response r = finalhandler None req
        /\ logged r = [LogError error]
  end.

(** What the client gets once a failure is pending: the answer of the
    error middleware to a [CustomError], and for anything else what
    Express sends when the stack is exhausted with no error left. *)
Definition failureAnswer (error : Thrown) (req : Request) : Response :=
  match error with
  | IsCustom e =>
      {| status := statusCode e; body := JsonBody (serializeErrors e) |}
  | NotCustom _ _ _ => finalhandler None req
  end.

(** ** Concrete instances *)

Module Sample.

Definition config : Config :=
  {| SECRET_KEY_ONE := Some "first-key";
     SECRET_KEY_TWO := Some "second-key";
     NODE_ENV := Some "development";
     CLIENT_URL := Some "http://localhost:3000";
     REDIS_HOST := Some "redis://localhost:6379" |}.

(** Middleware that lets every request through untouched. *)
Definition transparent : Middleware -> RequestHandler :=
  fun _ _ st => (st, Next None).

Definition failure : Thrown :=
  NotCustom "connect ECONNREFUSED 10.0.0.7:27017"
            "Error: connect ECONNREFUSED at db.ts:12:9" None.

Definition otherFailure : Thrown :=
  NotCustom "Cannot read properties of undefined" "TypeError at feed.ts:40"
            None.

Definition badRequest : CustomError :=
  {| statusCode := 400;
     serializeErrors :=
       JObj [("message", JStr "Email is required");
             ("status", JStr "error");
             ("statusCode", JNum 400)];
     customMessage := "Email is required";
     customStack := "BadRequestError at signup.ts:21" |}.

Definition isUrl (url : string) (req : Request) : bool :=
  (originalUrl req =? url)%string.

(** A route whose handler throws something unexpected, one that throws a
    [CustomError], and one that answers. *)
Definition crashing : RouteSpec :=
  {| matches := isUrl "/crash";
     handler := fun _ st => (st, Next (Some failure)) |}.

Definition rejecting : RouteSpec :=
  {| matches := isUrl "/signup";
     handler := fun _ st => (st, Next (Some (IsCustom badRequest))) |}.

Definition answering : RouteSpec :=
  {| matches := isUrl "/health";
     handler := fun _ st =>
       (st, Send {| status := HTTP_STATUS.OK; body := JsonBody (JStr "ok") |}) |}.

Definition routes : list RouteSpec := [crashing; rejecting; answering].

Definition app : Application := stack config routes express.

Definition get (url : string) : Request :=
  {| method := "GET"; originalUrl := url |}.

(** Everything works. *)
Definition calm : Env :=
  {| throws := fun _ => None;
     connects := fun _ => None;
     secondRejectsFirst := false;
     binds := None;
     pid := 4242 |}.


(** The body parser finds the request too large. *)
Definition tooLarge : Thrown :=
  NotCustom "request entity too large" "PayloadTooLargeError" (Some 413).

Definition strict : Middleware -> RequestHandler :=
  fun m _ st =>
    match m with
    | json _ => (st, Next (Some tooLarge))
    | _ => (st, Next None)
    end.

(** The backbone refuses the publisher's connection. *)
Definition publisherRefused : Env :=
  {| throws := fun _ => None;
     connects := fun c => if Nat.eqb c 2 then Some failure else None;
     secondRejectsFirst := false;
     binds := None;
     pid := 4242 |}.

(** Another process holds port 5000. *)
Definition addressInUse : Thrown :=
  NotCustom "listen EADDRINUSE: address already in use :::5000"
            "Error: listen EADDRINUSE" None.

Definition portTaken : Env :=
  {| throws := fun _ => None;
     connects := fun _ => None;
     secondRejectsFirst := false;
     binds := Some addressInUse;
     pid := 4242 |}.



(** The package cannot attach the adapter. *)
Definition unattachable : Env :=
  {| throws := fun c => match c with
                        | CallIoAdapter => Some failure
                        | _ => None
                        end;
     connects := fun _ => None;
     secondRejectsFirst := false;
     binds := None;
     pid := 4242 |}.

End Sample.

(** * Properties *)

(** ** The stack that [start] builds *)

Lemma securityMiddleware_registers (config : Config) (app : Application) :
  securityMiddleware config app = app ++ map Use (securityGate config).
Proof.
  unfold securityMiddleware, app_use.
  repeat rewrite <- app_assoc. reflexivity.
Qed.

Lemma standardMiddleware_registers (app : Application) :
  standardMiddleware app = app ++ map Use standardChain.
Proof.
  unfold standardMiddleware, app_use.
  repeat rewrite <- app_assoc. reflexivity.
Qed.

Lemma globalErrorHandler_registers (app : Application) :
  globalErrorHandler app
  = app ++ [All "*" notFoundHandler; UseError errorMiddleware].
Proof.
  unfold globalErrorHandler, app_all, app_use_error.
  rewrite <- app_assoc. reflexivity.
Qed.

Lemma stack_registers (config : Config) (routes : list RouteSpec)
    (app : Application) :
  stack config routes app
  = app ++ map Use (securityGate config) ++ map Use standardChain
        ++ map Route routes
        ++ [All "*" notFoundHandler; UseError errorMiddleware].
Proof.
  unfold stack, routeMiddleware, applicationRoutes.
  rewrite globalErrorHandler_registers, standardMiddleware_registers,
    securityMiddleware_registers.
  repeat rewrite <- app_assoc. reflexivity.
Qed.

(** Before the error middleware, [start] registers no error middleware. *)
Lemma stack_front (config : Config) (routes : list RouteSpec) :
  exists front,
    stack config routes express = front ++ [UseError errorMiddleware]
    /\ Forall (fun l => isErrorLayer l = false) front.
Proof.
  exists (map Use (securityGate config) ++ map Use standardChain
          ++ map Route routes ++ [All "*" notFoundHandler]).
  rewrite stack_registers. cbn [express app].
  split.
  - repeat rewrite <- app_assoc. reflexivity.
  - repeat (apply Forall_app; split);
      try (apply Forall_forall; intros l Hl; apply in_map_iff in Hl;
           destruct Hl as [x [<- _]]; reflexivity).
    repeat constructor.
Qed.

(** A non-empty remainder of a list that ends in [x] ends in [x]. *)
Lemma remainder_ends (A : Type) (before rest front : list A) (x : A) :
  before ++ rest = front ++ [x] -> rest <> [] ->
  exists mid, rest = mid ++ [x] /\ front = before ++ mid.
Proof.
  revert front. induction before as [| b before IH]; intros front Heq Hne.
  - exists front. split; [exact Heq | reflexivity].
  - destruct front as [| f front].
    + destruct before; destruct rest; try discriminate; congruence.
    + simpl in Heq. injection Heq as -> Heq.
      destruct (IH front Heq Hne) as [mid [Hr Hf]].
      exists mid. split; [exact Hr | simpl; congruence].
Qed.

(** ** Walking the stack *)

Section Walk.

Variable run : Middleware -> RequestHandler.

(** With an error pending, every layer that is not error middleware is
    passed over. *)
Lemma next_passes_over (ls rest : list Layer) (req : Request)
    (st : ReqState) (error : Thrown) :
  Forall (fun l => isErrorLayer l = false) ls ->
  next run (ls ++ rest) req st (Some error)
  = next run rest req st (Some error).
Proof.
  induction 1 as [| l ls Hl _ IH]; [reflexivity |].
  destruct l; simpl in *; try discriminate; exact IH.
Qed.

(** What reaches the error middleware, from anywhere before it. *)
Lemma next_reaches_errorMiddleware (config : Config)
    (routes : list RouteSpec) (before rest : list Layer) (req : Request)
    (st : ReqState) (error : Thrown) :
  stack config routes express = before ++ rest -> rest <> [] ->
  next run rest req st (Some error)
  = next run [UseError errorMiddleware] req st (Some error).
Proof.
  intros Hsplit Hne.
  destruct (stack_front config routes) as [front [Hfront Hnone]].
  rewrite Hfront in Hsplit. symmetry in Hsplit.
  destruct (remainder_ends _ before rest front _ Hsplit Hne) as [mid [-> Hmid]].
  apply next_passes_over.
  rewrite Hmid in Hnone. apply Forall_app in Hnone. tauto.
Qed.

(** Routes that do not match the request are passed over. *)
Lemma next_no_route (routes : list RouteSpec) (rest : list Layer)
    (req : Request) (st : ReqState) :
  (forall r, In r routes -> matches r req = false) ->
  next run (map Route routes ++ rest) req st None
  = next run rest req st None.
Proof.
  induction routes as [| r routes IH]; intros Hnone; [reflexivity |].
  simpl. rewrite (Hnone r (or_introl eq_refl)).
  apply IH. intros r' Hr'. apply Hnone. right. exact Hr'.
Qed.

(** Middleware that lets the request through hands it to what follows. *)
Lemma next_letThrough (ms : list Middleware) (rest : list Layer)
    (req : Request) (st st' : ReqState) :
  letThrough run ms req st = Some st' ->
  let here := next run (map Use ms ++ rest) req st None in
  let there := next run rest req st' None in
  visited here = map Use ms ++ visited there
  /\ logged here = logged there
  /\ response here = response there.
Proof.
  revert st. induction ms as [| m ms IH]; intros st Hthrough.
  - injection Hthrough as ->. simpl. auto.
  - simpl in Hthrough |- *.
    destruct (run m req st) as [st1 [r | [error |]]]; try discriminate.
    destruct (IH st1 Hthrough) as [Hv [Hl Hr]].
    simpl. rewrite Hv, Hl, Hr. auto.
Qed.

(** The request handlers that ran when a failure was pending from the
    start of a stretch of routes: none of the stretch. *)
Lemma next_routes_pending (routes : list RouteSpec) (rest : list Layer)
    (req : Request) (st : ReqState) (error : Thrown) :
  next run (map Route routes ++ rest) req st (Some error)
  = next run rest req st (Some error).
Proof.
  induction routes as [| r routes IH]; [reflexivity | exact IH].
Qed.

(** A route handler behind a chain of middleware runs only when the whole
    chain let the request through, provided nothing behind the chain runs
    a route handler while a failure is pending. *)
Lemma route_only_after (ms : list Middleware) (rest : list Layer)
    (req : Request) (r : RouteSpec) :
  (forall st error,
     ~ In (Route r) (visited (next run rest req st (Some error)))) ->
  forall st,
    In (Route r) (visited (next run (map Use ms ++ rest) req st None)) ->
    exists st' later,
      letThrough run ms req st = Some st'
      /\ visited (next run (map Use ms ++ rest) req st None)
         = map Use ms ++ later
      /\ In (Route r) later.
Proof.
  intros Hpending.
  induction ms as [| m ms IH]; intros st Hin.
  - exists st, (visited (next run rest req st None)). auto.
  - simpl in Hin |- *.
    destruct (run m req st) as [st1 [sent | [error |]]]; simpl in Hin |- *.
    + destruct Hin as [Hin | []]; discriminate.
    + destruct Hin as [Hin | Hin]; [discriminate |].
      exfalso. rewrite next_passes_over in Hin.
      * exact (Hpending st1 error Hin).
      * apply Forall_forall. intros l Hl. apply in_map_iff in Hl.
        destruct Hl as [x [<- _]]. reflexivity.
    + destruct Hin as [Hin | Hin]; [discriminate |].
      destruct (IH st1 Hin) as [st' [later [Hthrough [Hseen Hlater]]]].
      exists st', later. rewrite Hseen. auto.
Qed.

End Walk.

(** ** The Error Normalizer *)

(** C3. A failure that is an instance of [CustomError], raised by any
    layer registered before the error middleware, is answered by the
    error middleware with the status code the error declares and the value
    of its [serializeErrors()] as the JSON body; the middleware does so by
    itself, for any request. *)
Theorem recognized_failure_own_status_and_serialization
    (run : Middleware -> RequestHandler) (config : Config)
    (routes : list RouteSpec) (before rest : list Layer) (req : Request)
    (st : ReqState) (e : CustomError) :
  stack config routes express = before ++ rest -> rest <> [] ->
  let answer :=
    {| status := statusCode e; body := JsonBody (serializeErrors e) |} in
  let r := next run rest req st (Some (IsCustom e)) in
  errorMiddleware (IsCustom e) req = ([LogError (IsCustom e)], Send answer)
  /\ response r = answer
  /\ visited r = [UseError errorMiddleware].
Proof.
  intros Hsplit Hne. cbv zeta.
  rewrite (next_reaches_errorMiddleware run config routes before rest req st
             (IsCustom e) Hsplit Hne).
  repeat split.
Qed.

Lemma recognized_failure_witness :
  response
    (next Sample.transparent (skipn 9 Sample.app) (Sample.get "/signup") []
       (Some (IsCustom Sample.badRequest)))
  = {| status := 400;
       body := JsonBody (JObj [("message", JStr "Email is required");
                               ("status", JStr "error");
                               ("statusCode", JNum 400)]) |}.
Proof.
  refine (proj1 (proj2
    (recognized_failure_own_status_and_serialization Sample.transparent
       Sample.config Sample.routes (firstn 9 Sample.app)
       (skipn 9 Sample.app) (Sample.get "/signup") [] Sample.badRequest
       _ _))).
  - reflexivity.
  - simpl. discriminate.
Defined.

(** What the error middleware does with a failure it does not know.  A
    failure that is not an instance of
    [CustomError] and reaches the error middleware is written whole to
    the server log; the middleware sets no status and sends nothing, it
    calls [next()] without the error.  Nothing is registered behind it, so
    the client gets what Express sends for a request nobody answered:
    status 404 and the page made from the method and URL of the request.
    That response holds nothing of the failure and is the same for every
    such failure. *)
Theorem unrecognized_failure_logged_and_opaque
    (run : Middleware -> RequestHandler) (config : Config)
    (routes : list RouteSpec) (before rest : list Layer) (req : Request)
    (st : ReqState) (error : Thrown) :
  stack config routes express = before ++ rest -> rest <> [] ->
  instanceofCustomError error = false ->
  let r := next run rest req st (Some error) in
  errorMiddleware error req = ([LogError error], Next None)
  /\ logged r = [LogError error]
  /\ response r = {| status := HTTP_STATUS.NOT_FOUND;
                     body := CannotPage (method req) (originalUrl req) |}
  /\ forall error', instanceofCustomError error' = false ->
       response (next run rest req st (Some error')) = response r.
Proof.
  intros Hsplit Hne Hother. cbv zeta.
  rewrite (next_reaches_errorMiddleware run config routes before rest req st
             error Hsplit Hne).
  destruct error as [e | message stack status]; [discriminate |].
  repeat split.
  intros error' Hother'.
  rewrite (next_reaches_errorMiddleware run config routes before rest req st
             error' Hsplit Hne).
  destruct error' as [e' | message' stack' status']; [discriminate |].
  reflexivity.
Qed.

Lemma unrecognized_failure_witness :
  let r := next Sample.transparent (skipn 8 Sample.app)
             (Sample.get "/crash") [] (Some Sample.failure) in
  logged r = [LogError Sample.failure]
  /\ response r = {| status := 404; body := CannotPage "GET" "/crash" |}
  /\ response (next Sample.transparent (skipn 8 Sample.app)
                 (Sample.get "/crash") [] (Some Sample.otherFailure))
     = response r.
Proof.
  pose proof (unrecognized_failure_logged_and_opaque Sample.transparent
                Sample.config Sample.routes (firstn 8 Sample.app)
                (skipn 8 Sample.app) (Sample.get "/crash") [] Sample.failure
                eq_refl) as H.
  cbv zeta in H |- *.
  destruct H as [_ [Hlog [Hres Hsame]]].
  - simpl. discriminate.
  - reflexivity.
  - split; [exact Hlog | split; [exact Hres |]].
    apply Hsame. reflexivity.
Defined.

(** C1.  The code at an input where it departs from what is asked of it:
    the route [/crash] throws something that is no [CustomError]; the
    error middleware logs it and calls [next()] without it, and the status
    the client gets is 404, not the internal-error status. *)
Lemma unrecognized_failure_status_is_not_internal_error :
  let r := handle Sample.transparent Sample.app (Sample.get "/crash") [] in
  In (Route Sample.crashing) (visited r)
  /\ logged r = [LogError Sample.failure]
  /\ status (response r) = 404
  /\ status (response r) <> HTTP_STATUS.INTERNAL_SERVER_ERROR.
Proof.
  cbv zeta. vm_compute. repeat split; auto.
  - do 7 right. left. reflexivity.
  - discriminate.
Qed.





(** ** The Security Gate *)

(** C8. [start] registers the four gate middleware first, in the order
    session cookie, parameter pollution, hardening headers, cross-origin
    policy.  Whenever the handler of an application route runs for a
    request, these four have run before it, in that order, and each has
    let the request through. *)
Theorem security_gate_before_routes
    (run : Middleware -> RequestHandler) (config : Config)
    (routes : list RouteSpec) :
  (exists rest,
     stack config routes express = map Use (securityGate config) ++ rest)
  /\ forall (req : Request) (st : ReqState) (r : RouteSpec),
       let seen := visited (handle run (stack config routes express) req st) in
       In (Route r) seen ->
       exists st' later,
         letThrough run (securityGate config) req st = Some st'
         /\ seen = map Use (securityGate config) ++ later
         /\ In (Route r) later.
Proof.
  split.
  - eexists. rewrite stack_registers. reflexivity.
  - intros req st r. cbv zeta. unfold handle.
    rewrite stack_registers. cbn [express app].
    apply route_only_after.
    intros st1 error. simpl. rewrite next_routes_pending. simpl.
    destruct error; simpl; intros [Hin | []]; discriminate.
Qed.

Lemma security_gate_witness :
  exists later,
    visited (handle Sample.transparent Sample.app (Sample.get "/health") [])
    = map Use (securityGate Sample.config) ++ later
    /\ In (Route Sample.answering) later.
Proof.
  destruct (proj2 (security_gate_before_routes Sample.transparent
                     Sample.config Sample.routes)
              (Sample.get "/health") [] Sample.answering)
    as [st' [later [_ H]]].
  - vm_compute. do 7 right. left. reflexivity.
  - exists later. exact H.
Defined.

(** C6. The session cookie middleware that [securityMiddleware] registers,
    the only one on the stack, is made with the name "session", the keys
    [SECRET_KEY_ONE], [SECRET_KEY_TWO] in that order and no other, a
    maximum age of seven days in milliseconds, and [secure] set exactly
    when [NODE_ENV] is not "development". *)
Theorem session_cookie_options (config : Config) (routes : list RouteSpec) :
  (exists rest,
     stack config routes express
     = Use (cookieSession (sessionOptions config)) :: rest)
  /\ (forall o, In (Use (cookieSession o)) (stack config routes express) ->
                o = sessionOptions config)
  /\ name (sessionOptions config) = "session"
  /\ keys (sessionOptions config)
     = [SECRET_KEY_ONE config; SECRET_KEY_TWO config]
  /\ maxAge (sessionOptions config) = 7 * (24 * 60 * 60 * 1000)
  /\ (secure (sessionOptions config) = true
      <-> NODE_ENV config <> Some "development").
Proof.
  split; [| split].
  - eexists. rewrite stack_registers. reflexivity.
  - intros o. rewrite stack_registers. cbn [express app].
    rewrite !in_app_iff, !in_map_iff.
    intros [[m [Heq Hm]] | [[m [Heq Hm]] | [[r [Heq _]] | Hin]]];
      try discriminate.
    + injection Heq as ->. simpl in Hm.
      repeat (destruct Hm as [Hm | Hm]; [congruence |]). contradiction.
    + injection Heq as ->. simpl in Hm.
      repeat (destruct Hm as [Hm | Hm]; [discriminate |]). contradiction.
    + simpl in Hin.
      repeat (destruct Hin as [Hin | Hin]; [discriminate |]). contradiction.
  - repeat split.
    + simpl. unfold strictNotEqual.
      destruct (NODE_ENV config) as [s |]; [| discriminate].
      intros Hneq Heq. injection Heq as ->.
      rewrite String.eqb_refl in Hneq. discriminate.
    + simpl. unfold strictNotEqual.
      destruct (NODE_ENV config) as [s |]; [| reflexivity].
      intros Hneq. destruct (String.eqb_spec s "development") as [-> | _];
        [contradiction | reflexivity].
Qed.

(** C7. The cross-origin middleware that [securityMiddleware] registers,
    the only one on the stack, is made with the one configured origin
    [CLIENT_URL], with credentials allowed, with the methods GET, POST,
    DELETE and OPTIONS and no other, and with 200 as the status of the
    answer to a preflight request. *)
Theorem cors_options (config : Config) (routes : list RouteSpec) :
  In (Use (cors (corsOptions config))) (stack config routes express)
  /\ (forall o, In (Use (cors o)) (stack config routes express) ->
                o = corsOptions config)
  /\ origin (corsOptions config) = CLIENT_URL config
  /\ credentials (corsOptions config) = Some true
  /\ methods (corsOptions config) = ["GET"; "POST"; "DELETE"; "OPTIONS"]
  /\ optionsSuccessStatus (corsOptions config) = Some HTTP_STATUS.OK.
Proof.
  split; [| split].
  - rewrite stack_registers. simpl. do 3 right. left. reflexivity.
  - intros o. rewrite stack_registers. cbn [express app].
    rewrite !in_app_iff, !in_map_iff.
    intros [[m [Heq Hm]] | [[m [Heq Hm]] | [[r [Heq _]] | Hin]]];
      try discriminate.
    + injection Heq as ->. simpl in Hm.
      repeat (destruct Hm as [Hm | Hm]; [congruence |]). contradiction.
    + injection Heq as ->. simpl in Hm.
      repeat (destruct Hm as [Hm | Hm]; [discriminate |]). contradiction.
    + simpl in Hin.
      repeat (destruct Hin as [Hin | Hin]; [discriminate |]). contradiction.
  - repeat split.
Qed.

(** ** Start-up *)

(** [startServer] never throws.  Either no call throws and both
    connections are made, and it does all of [startupEvents], whose last
    event tells how binding the port ended; or it does the first [n] of
    them, at most the eight that come before the adapter is attached, and
    then logs the failure. *)
Lemma startServer_runs (config : Config) (app : Application) (env : Env)
    (w : World) :
  let run := startupEvents config app (pid env) (binds env) (fresh w) in
  exists w',
    startServer config app env w = (w', Returned tt)
    /\ (((forall c, throws env c = None)
         /\ connects env (pubClientOf w) = None
         /\ connects env (subClientOf w) = None
         /\ events w' = events w ++ run)
        \/ (startupFails env w
            /\ exists n error,
                 (n <= 8)%nat
                 /\ events w'
                    = events w ++ firstn n run ++ [Log (LogError error)])).
Proof.
  cbv zeta.
  unfold startServer, createSocketIO, startHttpServer, socketIOConnections,
    listen, awaitAll, connect, construct, invoke, log_info, log_error,
    tryCatch, bind, ret, throw, ask, allocate, emit, startupFails,
    pubClientOf, subClientOf.
  cbn [fst snd fresh events].
  destruct (throws env CallNewHttpServer) as [e1 |] eqn:E1.
  { eexists. split; [reflexivity |]. right. split.
    - left. exists CallNewHttpServer. congruence.
    - exists 0%nat, e1. repeat split; try lia. }
  cbn [fst snd fresh events].
  destruct (throws env CallNewIoServer) as [e2 |] eqn:E2.
  { eexists. split; [reflexivity |]. right. split.
    - left. exists CallNewIoServer. congruence.
    - exists 1%nat, e2. repeat split; try lia.
      cbn [events]. rewrite <- ?app_assoc. reflexivity. }
  cbn [fst snd fresh events].
  destruct (throws env CallCreateClient) as [e3 |] eqn:E3.
  { eexists. split; [reflexivity |]. right. split.
    - left. exists CallCreateClient. congruence.
    - exists 2%nat, e3. repeat split; try lia.
      cbn [events]. rewrite <- ?app_assoc. reflexivity. }
  cbn [fst snd fresh events].
  destruct (throws env CallDuplicate) as [e4 |] eqn:E4.
  { eexists. split; [reflexivity |]. right. split.
    - left. exists CallDuplicate. congruence.
    - exists 3%nat, e4. repeat split; try lia.
      cbn [events]. rewrite <- ?app_assoc. reflexivity. }
  cbn [fst snd fresh events].
  destruct (connects env (S (S (fresh w)))) as [e5 |] eqn:E5;
    destruct (connects env (S (S (S (fresh w))))) as [e6 |] eqn:E6;
    cbn [fst snd fresh events].
  { eexists. split; [reflexivity |]. right. split.
    - right. left. congruence.
    - exists 6%nat, (if secondRejectsFirst env then e6 else e5).
      repeat split; try lia.
      cbn [events]. rewrite <- ?app_assoc. reflexivity. }
  { eexists. split; [reflexivity |]. right. split.
    - right. left. congruence.
    - exists 6%nat, e5. repeat split; try lia.
      cbn [events]. rewrite <- ?app_assoc. reflexivity. }
  { eexists. split; [reflexivity |]. right. split.
    - right. right. congruence.
    - exists 6%nat, e6. repeat split; try lia.
      cbn [events]. rewrite <- ?app_assoc. reflexivity. }
  destruct (throws env CallCreateAdapter) as [e7 |] eqn:E7.
  { eexists. split; [reflexivity |]. right. split.
    - left. exists CallCreateAdapter. congruence.
    - exists 7%nat, e7. repeat split; try lia.
      cbn [events]. rewrite <- ?app_assoc. reflexivity. }
  cbn [fst snd fresh events].
  destruct (throws env CallIoAdapter) as [e8 |] eqn:E8.
  { eexists. split; [reflexivity |]. right. split.
    - left. exists CallIoAdapter. congruence.
    - exists 8%nat, e8. repeat split; try lia.
      cbn [events]. rewrite <- ?app_assoc. reflexivity. }
  cbn [fst snd fresh events].
  destruct (binds env) as [e9 |];
    (eexists; split; [reflexivity |]; left;
     repeat split; try assumption;
     [ intros c; destruct c; assumption
     | cbn [events]; rewrite <- ?app_assoc; reflexivity ]).
Qed.

(** The cases of a start-up that failed after [n <= 8] events. *)
Ltac each_prefix n :=
  do 9 (try (destruct n as [| n])); [.. | exfalso; lia];
  cbn [startupEvents firstn app].

(** Where in an explicit list of events an event of a given shape sits. *)
Ltac pinpoint H before :=
  repeat (destruct before as [| ? before]; cbn [app] in H;
          [ try discriminate H
          | first [ discriminate H | injection H as <- H ] ]).

(** C4. In every run of start-up, the listener is started only after both
    connection attempts to the backbone were made and both have succeeded:
    whatever comes before a [Listen] event includes the [Connect] of two
    distinct clients and the resumption of the [await] on both, and the
    promises of both were fulfilled. *)
Theorem listen_only_after_both_connections (config : Config)
    (routes : list RouteSpec) (app : Application) (env : Env) (w : World) :
  exists added,
    events (fst (start config routes app env w)) = events w ++ added
    /\ forall before httpServer port after,
         added = before ++ Listen httpServer port :: after ->
         exists pubClient subClient,
           pubClient <> subClient
           /\ connects env pubClient = None
           /\ connects env subClient = None
           /\ In (Connect pubClient) before
           /\ In (Connect subClient) before
           /\ In (Connected [pubClient; subClient]) before.
Proof.
  unfold start.
  destruct (startServer_runs config (stack config routes app) env w)
    as [w' [Hrun [[_ [Hp [Hs Hev]]] | [_ [n [error [Hn Hev]]]]]]];
    rewrite Hrun; cbn [fst]; eexists; (split; [exact Hev |]);
    intros before httpServer port after Hsplit.
  - unfold startupEvents in Hsplit.
    destruct (binds env) as [bindError |] in *; pinpoint Hsplit before;
      exists (pubClientOf w), (subClientOf w);
      unfold pubClientOf, subClientOf in *; simpl;
      repeat split; try assumption; try tauto; lia.
  - exfalso. each_prefix n; pinpoint Hsplit before.
Qed.

Lemma listen_only_after_both_connections_witness :
  exists pubClient subClient,
    pubClient <> subClient
    /\ connects Sample.calm pubClient = None
    /\ connects Sample.calm subClient = None
    /\ In (Connected [pubClient; subClient])
          (firstn 10 (events (fst (start Sample.config Sample.routes express
                                     Sample.calm boot)))).
Proof.
  destruct (listen_only_after_both_connections Sample.config Sample.routes
              express Sample.calm boot) as [added [Hev Hlisten]].
  cbn [events boot app] in Hev.
  destruct (Hlisten (firstn 10 added) 0%nat SERVER_PORT (skipn 11 added))
    as [p [s [Hne [Hp [Hs [_ [_ Hready]]]]]]].
  - rewrite <- Hev. reflexivity.
  - exists p, s. rewrite Hev. auto.
Defined.

(** C5. Start-up makes at most two backbone clients, and when it reaches
    the fan-out adapter it made exactly two: one with [createClient] from
    [REDIS_HOST], the other with [duplicate()] from the first, a different
    object; connection was attempted on both, and the adapter is made from
    the first as publisher and the second as subscriber.  When nothing
    fails the adapter is made and attached to the event-channel server. *)
Theorem two_backbone_clients (config : Config) (routes : list RouteSpec)
    (app : Application) (env : Env) (w : World) :
  exists added,
    events (fst (start config routes app env w)) = events w ++ added
    /\ (List.length (filter makesClient added) <= 2)%nat
    /\ (forall adapter pubClient subClient,
          In (CreateAdapter adapter pubClient subClient) added ->
          pubClient <> subClient
          /\ filter makesClient added
             = [CreateClient pubClient (REDIS_HOST config);
                Duplicate subClient pubClient]
          /\ In (Connect pubClient) added
          /\ In (Connect subClient) added)
    /\ ((forall c, throws env c = None) ->
        (forall client, connects env client = None) ->
        exists io adapter pubClient subClient,
          In (CreateAdapter adapter pubClient subClient) added
          /\ In (IoAdapter io adapter) added).
Proof.
  unfold start.
  destruct (startServer_runs config (stack config routes app) env w)
    as [w' [Hrun [[_ [_ [_ Hev]]] | [Hfails [n [error [Hn Hev]]]]]]];
    rewrite Hrun; cbn [fst]; eexists; (split; [exact Hev |]).
  - destruct (binds env) as [bindError |];
      (split; [simpl; lia |]);
      (split;
       [ intros adapter p s Hin; simpl in Hin;
         repeat (destruct Hin as [Hin | Hin]; [try discriminate Hin |]);
           [| contradiction];
         injection Hin as <- <- <-; simpl;
         repeat split; try tauto; lia
       | intros _ _; do 4 eexists; simpl; split;
         [ do 7 right; left; reflexivity
         | do 8 right; left; reflexivity ] ]).
  - split; [| split].
    + each_prefix n; simpl; lia.
    + intros adapter p s Hin.
      each_prefix n; simpl in Hin;
        repeat (destruct Hin as [Hin | Hin]; [try discriminate Hin |]);
        try contradiction.
      injection Hin as <- <- <-. simpl.
      repeat split; try tauto. lia.
    + intros Hcalls Hconnects. exfalso.
      destruct Hfails as [[c Hc] | [Hc | Hc]]; apply Hc; auto.
Qed.

Lemma two_backbone_clients_witness :
  exists io adapter pubClient subClient,
    In (CreateAdapter adapter pubClient subClient)
       (events (fst (start Sample.config Sample.routes express Sample.calm
                       boot)))
    /\ In (IoAdapter io adapter)
          (events (fst (start Sample.config Sample.routes express
                          Sample.calm boot))).
Proof.
  destruct (two_backbone_clients Sample.config Sample.routes express
              Sample.calm boot) as [added [Hev [_ [_ Hmade]]]].
  cbn [events boot app] in Hev. rewrite Hev.
  apply Hmade; reflexivity.
Defined.

(** C9. Start-up starts at most one listener; a listener it starts is on
    port [SERVER_PORT], which is 5000, of the HTTP server that was made
    from the application, and the event-channel server was attached to
    that same HTTP server.  When nothing fails there is exactly one. *)
Theorem one_listener_shared_by_http_and_events (config : Config)
    (routes : list RouteSpec) (app : Application) (env : Env) (w : World) :
  exists added,
    events (fst (start config routes app env w)) = events w ++ added
    /\ (List.length (filter isListen added) <= 1)%nat
    /\ (forall httpServer port,
          In (Listen httpServer port) added ->
          port = SERVER_PORT
          /\ port = 5000
          /\ In (NewHttpServer httpServer (stack config routes app)) added
          /\ exists io,
               In (NewIoServer io httpServer (ioCorsOptions config)) added)
    /\ ((forall c, throws env c = None) ->
        (forall client, connects env client = None) ->
        exists httpServer,
          filter isListen added = [Listen httpServer SERVER_PORT]).
Proof.
  unfold start.
  destruct (startServer_runs config (stack config routes app) env w)
    as [w' [Hrun [[_ [_ [_ Hev]]] | [Hfails [n [error [Hn Hev]]]]]]];
    rewrite Hrun; cbn [fst]; eexists; (split; [exact Hev |]).
  - destruct (binds env) as [bindError |];
      (split; [simpl; lia |]);
      (split;
       [ intros h port Hin; simpl in Hin;
         repeat (destruct Hin as [Hin | Hin]; [try discriminate Hin |]);
           [| contradiction];
         injection Hin as <- <-; simpl;
         repeat split; try tauto;
         eexists; right; left; reflexivity
       | intros _ _; eexists; reflexivity ]).
  - split; [| split].
    + each_prefix n; simpl; lia.
    + intros h port Hin. exfalso.
      each_prefix n; simpl in Hin;
        repeat (destruct Hin as [Hin | Hin]; [try discriminate Hin |]);
        contradiction.
    + intros Hcalls Hconnects. exfalso.
      destruct Hfails as [[c Hc] | [Hc | Hc]]; apply Hc; auto.
Qed.

Lemma one_listener_witness :
  exists httpServer,
    filter isListen
      (events (fst (start Sample.config Sample.routes express Sample.calm
                      boot)))
    = [Listen httpServer 5000].
Proof.
  destruct (one_listener_shared_by_http_and_events Sample.config
              Sample.routes express Sample.calm boot)
    as [added [Hev [_ [_ Hone]]]].
  cbn [events boot app] in Hev. rewrite Hev.
  apply Hone; reflexivity.
Defined.




(** * Further properties of the request path *)

Section Settling.

Variable run : Middleware -> RequestHandler.
Variable req : Request.

Lemma lastRan_ran (l l' : Layer) (r : Handled) :
  lastRan l r -> lastRan l (ran l' r).
Proof.
  intros [front Hfront]. exists (l' :: front). simpl. now rewrite Hfront.
Qed.

Lemma settled_ran (l : Layer) (r : Handled) :
  Settled run req r -> Settled run req (ran l r).
Proof.
  intros [m st st' Hlast Hrun Hlog | rt st st' Hlast Hm Hrun Hlog
          | Hlast Hsent Hlog | e Hlast Hres Hlog
          | error Hother Hlast Hres Hlog].
  - apply (ByMiddleware run req (ran l r) m st st');
      [apply lastRan_ran | |]; assumption.
  - apply (ByRoute run req (ran l r) rt st st');
      [apply lastRan_ran | | |]; assumption.
  - apply ByCatchAll; [apply lastRan_ran | |]; assumption.
  - apply (ByCustomError run req (ran l r) e);
      [apply lastRan_ran | |]; assumption.
  - apply (ByFallThrough run req (ran l r) error);
      [| apply lastRan_ran | |]; assumption.
Qed.

(** A failure pending in front of the routes: nothing runs but the error
    middleware, which logs it and answers or lets Express answer. *)
Lemma pending_behind_chain (ms : list Middleware) (routes : list RouteSpec)
    (st : ReqState) (error : Thrown) :
  next run (map Use ms ++ map Route routes
            ++ [All "*" notFoundHandler; UseError errorMiddleware])
       req st (Some error)
  = {| visited := [UseError errorMiddleware];
       logged := [LogError error];
       response := failureAnswer error req |}.
Proof.
  rewrite next_passes_over.
  - rewrite next_routes_pending. destruct error; reflexivity.
  - apply Forall_forall. intros l Hl. apply in_map_iff in Hl.
    destruct Hl as [x [<- _]]. reflexivity.
Qed.

Lemma pending_at_routes (routes : list RouteSpec) (st : ReqState)
    (error : Thrown) :
  next run (map Route routes
            ++ [All "*" notFoundHandler; UseError errorMiddleware])
       req st (Some error)
  = {| visited := [UseError errorMiddleware];
       logged := [LogError error];
       response := failureAnswer error req |}.
Proof.
  exact (pending_behind_chain [] routes st error).
Qed.

Lemma pending_settled (routes : list RouteSpec) (st : ReqState)
    (error : Thrown) :
  Settled run req
    (next run (map Route routes
               ++ [All "*" notFoundHandler; UseError errorMiddleware])
       req st (Some error)).
Proof.
  rewrite (pending_at_routes routes st error).
  destruct error as [e | message stack status].
  - apply (ByCustomError _ _ _ e); try reflexivity. now exists [].
  - apply (ByFallThrough _ _ _ (NotCustom message stack status));
      try reflexivity. now exists [].
Qed.

Lemma routes_settled (routes : list RouteSpec) (st : ReqState) :
  Settled run req
    (next run (map Route routes
               ++ [All "*" notFoundHandler; UseError errorMiddleware])
       req st None).
Proof.
  revert st. induction routes as [| rt routes IH]; intros st.
  - apply ByCatchAll; try reflexivity. now exists [].
  - cbn [map List.app next].
    destruct (matches rt req) eqn:Hm; [| apply IH].
    destruct (handler rt req st) as [st1 [sent | [error |]]] eqn:Hh.
    + apply (ByRoute _ _ _ rt st st1); try assumption; try reflexivity.
      now exists [].
    + apply settled_ran. apply pending_settled.
    + apply settled_ran. apply IH.
Qed.

Lemma chain_settled (ms : list Middleware) (rest : list Layer)
    (st : ReqState) :
  (forall st' error, Settled run req (next run rest req st' (Some error))) ->
  (forall st', Settled run req (next run rest req st' None)) ->
  Settled run req (next run (map Use ms ++ rest) req st None).
Proof.
  intros Hpending Hclear. revert st.
  induction ms as [| m ms IH]; intros st; [apply Hclear |].
  cbn [map List.app next].
  destruct (run m req st) as [st1 [sent | [error |]]] eqn:Hrun.
  - apply (ByMiddleware _ _ _ m st st1); try assumption; try reflexivity.
    now exists [].
  - apply settled_ran. cbn [continue]. rewrite next_passes_over.
    + apply Hpending.
    + apply Forall_forall. intros l Hl. apply in_map_iff in Hl.
      destruct Hl as [x [<- _]]. reflexivity.
  - apply settled_ran. apply IH.
Qed.

End Settling.

(** The layer that ran last is one layer. *)
Lemma lastRan_unique (l l' : Layer) (r : Handled) :
  lastRan l r -> lastRan l' r -> l = l'.
Proof.
  intros [front Hfront] [front' Hfront'].
  rewrite Hfront in Hfront'.
  apply app_inj_tail in Hfront'. tauto.
Qed.

Lemma settled_as (run : Middleware -> RequestHandler) (req : Request)
    (r : Handled) :
  Settled run req r -> exists k, SettledAs run req r k.
Proof.
  intros [m st st' Hlast Hrun Hlog | rt st st' Hlast Hm Hrun Hlog
          | Hlast Hsent Hlog | e Hlast Hres Hlog
          | error Hother Hlast Hres Hlog].
  - exists EndedByMiddleware. exists m, st, st'. auto.
  - exists EndedByRoute. exists rt, st, st'. auto.
  - exists EndedByCatchAll. simpl. auto.
  - exists EndedByCustomError. exists e. auto.
  - exists EndedByFallThrough. exists error. auto.
Qed.

Lemma settled_as_one (run : Middleware -> RequestHandler) (req : Request)
    (r : Handled) (k k' : Ending) :
  SettledAs run req r k -> SettledAs run req r k' -> k = k'.
Proof.
  assert (forall k, SettledAs run req r k ->
            exists l, lastRan l r
              /\ match k with
                 | EndedByMiddleware => exists m, l = Use m
                 | EndedByRoute => exists rt, l = Route rt
                 | EndedByCatchAll => l = All "*" notFoundHandler
                 | _ => l = UseError errorMiddleware
                 end) as Hlayer.
  { intros [] H; simpl in H.
    - destruct H as [m [st [st' [Hl _]]]]. exists (Use m). eauto.
    - destruct H as [rt [st [st' [Hl _]]]]. exists (Route rt). eauto.
    - destruct H as [Hl _]. eauto.
    - destruct H as [e [Hl _]]. eauto.
    - destruct H as [error [_ [Hl _]]]. eauto. }
  intros Hk Hk'.
  destruct (Hlayer k Hk) as [l [Hl Hshape]].
  destruct (Hlayer k' Hk') as [l' [Hl' Hshape']].
  pose proof (lastRan_unique l l' r Hl Hl') as <-.
  destruct k, k'; try reflexivity; exfalso; simpl in *;
    repeat match goal with
      | H : exists _, _ |- _ => destruct H
      | H : _ /\ _ |- _ => destruct H
      end;
    try congruence;
    match goal with
    | Hother : instanceofCustomError ?error = false,
      Hlog : logged r = [LogError (IsCustom ?e)],
      Hlog' : logged r = [LogError ?error] |- _ =>
        rewrite Hlog in Hlog'; injection Hlog' as Hlog';
        rewrite <- Hlog' in Hother; discriminate Hother
    end.
Qed.

(** X1. Every package middleware and every route handler taken to do one
    of two things, end the response or pass control on (by [next()],
    [next(err)] or a throw), a request to the application ends in exactly
    one of five ways: a package middleware ended the response; a matching
    route did; the catch-all answered; the error middleware answered a
    [CustomError]; or a failure of another kind was logged and Express
    answered as for a request with no error.  The server log gets at most
    one entry per request, an error, and only when the error middleware
    ran. *)
Theorem every_request_settled (run : Middleware -> RequestHandler)
    (config : Config) (routes : list RouteSpec) (req : Request)
    (st : ReqState) :
  let r := handle run (stack config routes express) req st in
  (exists! k, SettledAs run req r k)
  /\ (List.length (logged r) <= 1)%nat
  /\ (forall entry, In entry (logged r) ->
        exists error, entry = LogError error
                      /\ lastRan (UseError errorMiddleware) r).
Proof.
  cbv zeta.
  assert (Settled run req (handle run (stack config routes express) req st))
    as Hsettled.
  { unfold handle. rewrite stack_registers. cbn [express List.app].
    rewrite app_assoc, <- map_app.
    apply chain_settled.
    - intros st' error. apply pending_settled.
    - intros st'. apply routes_settled. }
  split.
  { destruct (settled_as run req _ Hsettled) as [k Hk].
    exists k. split; [exact Hk |].
    intros k' Hk'. exact (settled_as_one run req _ k k' Hk Hk'). }
  destruct Hsettled as [m s s' Hlast Hrun Hlog | rt s s' Hlast Hm Hrun Hlog
                        | Hlast Hsent Hlog | e Hlast Hres Hlog
                        | error Hother Hlast Hres Hlog];
    rewrite Hlog; simpl; (split; [lia |]); intros entry Hin;
    try contradiction;
    destruct Hin as [<- | []]; eexists; split; try reflexivity; assumption.
Qed.

(** X2. The handler of an application route runs only after all seven
    package middleware, the gate and then compression and the two body
    parsers, have run in the order of registration and each has let the
    request through. *)
Theorem parsers_before_routes (run : Middleware -> RequestHandler)
    (config : Config) (routes : list RouteSpec) (req : Request)
    (st : ReqState) (r : RouteSpec) :
  let seen := visited (handle run (stack config routes express) req st) in
  In (Route r) seen ->
  exists st' later,
    letThrough run (securityGate config ++ standardChain) req st = Some st'
    /\ seen = map Use (securityGate config ++ standardChain) ++ later
    /\ In (Route r) later.
Proof.
  cbv zeta. unfold handle. rewrite stack_registers. cbn [express List.app].
  rewrite app_assoc, <- map_app.
  apply route_only_after.
  intros st1 error.
  rewrite (pending_at_routes run req routes st1 error).
  intros [Hin | []]. discriminate.
Qed.

Lemma parsers_before_routes_witness :
  exists later,
    visited (handle Sample.transparent Sample.app (Sample.get "/health") [])
    = map Use (securityGate Sample.config ++ standardChain) ++ later
    /\ In (Route Sample.answering) later.
Proof.
  destruct (parsers_before_routes Sample.transparent Sample.config
              Sample.routes (Sample.get "/health") [] Sample.answering)
    as [st' [later [_ H]]].
  - vm_compute. do 7 right. left. reflexivity.
  - exists later. exact H.
Defined.

(** X3. Routes are tried in the order of registration and the catch-all
    comes last: when the middleware let a request through and the first
    route that matches it ends the response, that response is what the
    client gets; no later route and not the catch-all runs, and nothing is
    logged. *)
Theorem first_matching_route_answers (run : Middleware -> RequestHandler)
    (config : Config) (earlier later : list RouteSpec) (r : RouteSpec)
    (req : Request) (st st1 st2 : ReqState) (sent : Response) :
  letThrough run (securityGate config ++ standardChain) req st = Some st1 ->
  (forall r', In r' earlier -> matches r' req = false) ->
  matches r req = true ->
  handler r req st1 = (st2, Send sent) ->
  let h := handle run (stack config (earlier ++ r :: later) express) req st in
  response h = sent
  /\ logged h = []
  /\ visited h
     = map Use (securityGate config ++ standardChain) ++ [Route r].
Proof.
  intros Hthrough Hnone Hm Hh. cbv zeta.
  unfold handle. rewrite stack_registers. cbn [express List.app].
  rewrite app_assoc, <- map_app.
  destruct (next_letThrough run _
              (map Route (earlier ++ r :: later)
               ++ [All "*" notFoundHandler; UseError errorMiddleware])
              req st st1 Hthrough) as [Hv [Hl Hr]].
  rewrite Hv, Hl, Hr.
  rewrite map_app, <- app_assoc, next_no_route by exact Hnone.
  cbn [map List.app next]. rewrite Hm, Hh. repeat split.
Qed.

Lemma first_matching_route_witness :
  response (handle Sample.transparent Sample.app (Sample.get "/health") [])
  = {| status := 200; body := JsonBody (JStr "ok") |}.
Proof.
  refine (proj1 (first_matching_route_answers Sample.transparent
                   Sample.config [Sample.crashing; Sample.rejecting] []
                   Sample.answering (Sample.get "/health") [] [] [] _
                   _ _ _ _)).
  - reflexivity.
  - intros r' [<- | [<- | []]]; reflexivity.
  - reflexivity.
  - reflexivity.
Defined.

(** X4. When the first route that matches a request throws, no later
    route and not the catch-all runs: the error middleware runs next, logs
    that failure once, and the client gets the answer to it: status and
    serialization of a [CustomError], and for anything else the 404 page
    of Express. *)
Theorem failing_route_goes_to_error_middleware
    (run : Middleware -> RequestHandler) (config : Config)
    (earlier later : list RouteSpec) (r : RouteSpec) (req : Request)
    (st st1 st2 : ReqState) (error : Thrown) :
  letThrough run (securityGate config ++ standardChain) req st = Some st1 ->
  (forall r', In r' earlier -> matches r' req = false) ->
  matches r req = true ->
  handler r req st1 = (st2, Next (Some error)) ->
  let h := handle run (stack config (earlier ++ r :: later) express) req st in
  response h = failureAnswer error req
  /\ logged h = [LogError error]
  /\ visited h
     = map Use (securityGate config ++ standardChain)
       ++ [Route r; UseError errorMiddleware].
Proof.
  intros Hthrough Hnone Hm Hh. cbv zeta.
  unfold handle. rewrite stack_registers. cbn [express List.app].
  rewrite app_assoc, <- map_app.
  destruct (next_letThrough run _
              (map Route (earlier ++ r :: later)
               ++ [All "*" notFoundHandler; UseError errorMiddleware])
              req st st1 Hthrough) as [Hv [Hl Hr]].
  rewrite Hv, Hl, Hr.
  rewrite map_app, <- app_assoc, next_no_route by exact Hnone.
  cbn [map List.app next]. rewrite Hm, Hh. cbn [continue].
  rewrite (pending_at_routes run req later st2 error).
  repeat split.
Qed.

Lemma failing_route_witness :
  response (handle Sample.transparent Sample.app (Sample.get "/signup") [])
  = {| status := 400; body := JsonBody (serializeErrors Sample.badRequest) |}.
Proof.
  refine (proj1 (failing_route_goes_to_error_middleware Sample.transparent
                   Sample.config [Sample.crashing] [Sample.answering]
                   Sample.rejecting (Sample.get "/signup") [] [] []
                   (IsCustom Sample.badRequest) _ _ _ _)).
  - reflexivity.
  - intros r' [<- | []]; reflexivity.
  - reflexivity.
  - reflexivity.
Defined.

(** X5. When a package middleware fails, the middleware registered after
    it, every route and the catch-all are passed over; the failure is
    logged once and answered like any other.  A failure that is no
    [CustomError] loses the status it carries: the client gets 404. *)
Theorem failing_middleware_skips_the_rest
    (run : Middleware -> RequestHandler) (config : Config)
    (routes : list RouteSpec) (passed behind : list Middleware)
    (m : Middleware) (req : Request) (st st1 st2 : ReqState)
    (error : Thrown) :
  securityGate config ++ standardChain = passed ++ m :: behind ->
  letThrough run passed req st = Some st1 ->
  run m req st1 = (st2, Next (Some error)) ->
  let h := handle run (stack config routes express) req st in
  response h = failureAnswer error req
  /\ logged h = [LogError error]
  /\ visited h = map Use passed ++ [Use m; UseError errorMiddleware]
  /\ (instanceofCustomError error = false ->
      status (response h) = HTTP_STATUS.NOT_FOUND).
Proof.
  intros Hchain Hthrough Hrun. cbv zeta.
  unfold handle. rewrite stack_registers. cbn [express List.app].
  rewrite app_assoc, <- map_app, Hchain, map_app, <- app_assoc.
  destruct (next_letThrough run passed
              (map Use (m :: behind) ++ map Route routes
               ++ [All "*" notFoundHandler; UseError errorMiddleware])
              req st st1 Hthrough) as [Hv [Hl Hr]].
  rewrite Hv, Hl, Hr.
  cbn [map List.app next]. rewrite Hrun. cbn [continue].
  rewrite (pending_behind_chain run req behind routes st2 error).
  repeat split.
  destruct error; [discriminate | reflexivity].
Qed.

Lemma failing_middleware_witness :
  let h := handle Sample.strict Sample.app (Sample.get "/health") [] in
  logged h = [LogError Sample.tooLarge]
  /\ status (response h) = 404.
Proof.
  destruct (failing_middleware_skips_the_rest Sample.strict Sample.config
              Sample.routes
              [cookieSession (sessionOptions Sample.config); hpp; helmet;
               cors (corsOptions Sample.config); compression]
              [urlencoded {| extended := Some true; limit := "50mb" |}]
              (json {| extended := None; limit := "50mb" |})
              (Sample.get "/health") [] [] [] Sample.tooLarge)
    as [_ [Hlog [_ Hstatus]]].
  - reflexivity.
  - reflexivity.
  - reflexivity.
  - split; [exact Hlog | apply Hstatus; reflexivity].
Defined.

(** * Further properties of start-up *)

(** [startServer] never throws, and what it does is [startupEvents] cut at
    [failurePoint], with the failure logged there. *)
Lemma startServer_stops (config : Config) (app : Application) (env : Env)
    (w : World) :
  let run := startupEvents config app (pid env) (binds env) (fresh w) in
  exists w',
    startServer config app env w = (w', Returned tt)
    /\ events w'
       = events w
         ++ match failurePoint env w with
            | None => run
            | Some (n, error) => firstn n run ++ [Log (LogError error)]
            end.
Proof.
  cbv zeta.
  unfold startServer, createSocketIO, startHttpServer, socketIOConnections,
    listen, awaitAll, connect, construct, invoke, log_info, log_error,
    tryCatch, bind, ret, throw, ask, allocate, emit, failurePoint,
    pubClientOf, subClientOf.
  cbn [fst snd fresh events].
  destruct (throws env CallNewHttpServer) as [e1 |];
    [eexists; split; reflexivity |].
  cbn [fst snd fresh events].
  destruct (throws env CallNewIoServer) as [e2 |];
    [eexists; split; [reflexivity |];
     cbn [events]; rewrite <- ?app_assoc; reflexivity |].
  cbn [fst snd fresh events].
  destruct (throws env CallCreateClient) as [e3 |];
    [eexists; split; [reflexivity |];
     cbn [events]; rewrite <- ?app_assoc; reflexivity |].
  cbn [fst snd fresh events].
  destruct (throws env CallDuplicate) as [e4 |];
    [eexists; split; [reflexivity |];
     cbn [events]; rewrite <- ?app_assoc; reflexivity |].
  cbn [fst snd fresh events].
  destruct (connects env (S (S (fresh w)))) as [e5 |];
    destruct (connects env (S (S (S (fresh w))))) as [e6 |];
    cbn [fst snd fresh events];
    try (eexists; split; [reflexivity |];
         cbn [events]; rewrite <- ?app_assoc; reflexivity).
  destruct (throws env CallCreateAdapter) as [e7 |];
    [eexists; split; [reflexivity |];
     cbn [events]; rewrite <- ?app_assoc; reflexivity |].
  cbn [fst snd fresh events].
  destruct (throws env CallIoAdapter) as [e8 |];
    [eexists; split; [reflexivity |];
     cbn [events]; rewrite <- ?app_assoc; reflexivity |].
  cbn [fst snd fresh events].
  destruct (binds env) as [e9 |];
    eexists; (split; [reflexivity |]);
    cbn [events]; rewrite <- ?app_assoc; reflexivity.
Qed.

(** The cases of [failurePoint], in a hypothesis or in the goal. *)
Ltac stop_cases :=
  unfold failurePoint in *;
  repeat match goal with
    | |- context [match throws ?env ?c with _ => _ end] =>
        destruct (throws env c) eqn:?
    | |- context [match connects ?env ?c with _ => _ end] =>
        destruct (connects env c) eqn:?
    | H : context [match throws ?env ?c with _ => _ end] |- _ =>
        destruct (throws env c) eqn:?
    | H : context [match connects ?env ?c with _ => _ end] |- _ =>
        destruct (connects env c) eqn:?
    end;
  cbn [startupEvents firstn List.app option_map snd] in *;
  unfold startupEvents in *;
  repeat match goal with
    | |- context [match binds ?env with _ => _ end] =>
        destruct (binds env) eqn:?
    | H : context [match binds ?env with _ => _ end] |- _ =>
        destruct (binds env) eqn:?
    end.

(** Membership in an explicit list of events, case by case. *)
Ltac in_cases H :=
  simpl in H;
  repeat (destruct H as [H | H]; [try discriminate H |]);
  try contradiction.

(** X6. The failure a start-up logs is the first one in the order of the
    calls: an error entry is written exactly when some step fails, and it
    holds the failure of the earliest failing step (of two rejected
    connections, the one rejected first).  When no step fails the server
    listens. *)
Theorem logged_failure_is_first_failure (config : Config)
    (routes : list RouteSpec) (app : Application) (env : Env) (w : World) :
  exists added,
    events (fst (start config routes app env w)) = events w ++ added
    /\ (forall error,
          In (Log (LogError error)) added
          <-> option_map snd (failurePoint env w) = Some error)
    /\ (failurePoint env w = None ->
        exists httpServer, In (Listen httpServer SERVER_PORT) added).
Proof.
  unfold start.
  destruct (startServer_stops config (stack config routes app) env w)
    as [w' [Hrun Hev]].
  rewrite Hrun. cbn [fst]. eexists. split; [exact Hev |]. clear Hev Hrun.
  stop_cases;
    (split;
     [ intros error; split;
       [ intros Hin; in_cases Hin; injection Hin as <-; reflexivity
       | intros [= <-]; simpl; repeat (first [left; reflexivity | right]) ]
     | try discriminate ]).
  all: intros _; eexists; simpl; do 10 right; left; reflexivity.
Qed.

Lemma logged_failure_witness :
  In (Log (LogError Sample.failure))
     (events (fst (start Sample.config Sample.routes express
                     Sample.unattachable boot))).
Proof.
  destruct (logged_failure_is_first_failure Sample.config Sample.routes
              express Sample.unattachable boot) as [added [Hev [Hlog _]]].
  cbn [events boot List.app] in Hev. rewrite Hev.
  apply Hlog. reflexivity.
Defined.

(** X7. The two connection attempts are started together, before either
    is awaited: a start-up makes none or both, the publisher's first and
    then that of its duplicate.  Once the two clients exist both attempts
    are made however they end, so the subscriber's is made even when the
    publisher's is rejected. *)
Theorem connections_attempted_together (config : Config)
    (routes : list RouteSpec) (app : Application) (env : Env) (w : World) :
  exists added,
    events (fst (start config routes app env w)) = events w ++ added
    /\ (filter isConnect added = []
        \/ exists pubClient subClient,
             pubClient <> subClient
             /\ In (Duplicate subClient pubClient) added
             /\ filter isConnect added
                = [Connect pubClient; Connect subClient])
    /\ (throws env CallNewHttpServer = None ->
        throws env CallNewIoServer = None ->
        throws env CallCreateClient = None ->
        throws env CallDuplicate = None ->
        filter isConnect added
        = [Connect (pubClientOf w); Connect (subClientOf w)]).
Proof.
  unfold start.
  destruct (startServer_stops config (stack config routes app) env w)
    as [w' [Hrun Hev]].
  rewrite Hrun. cbn [fst]. eexists. split; [exact Hev |]. clear Hev Hrun.
  stop_cases; (split; [| intros; try discriminate; reflexivity]);
    first [ left; reflexivity
          | right; exists (2 + fresh w)%nat, (3 + fresh w)%nat;
            split; [lia |]; split; [| reflexivity];
            simpl; tauto ].
Qed.

Lemma connections_attempted_together_witness :
  filter isConnect
    (events (fst (start Sample.config Sample.routes express
                    Sample.publisherRefused boot)))
  = [Connect 2%nat; Connect 3%nat].
Proof.
  destruct (connections_attempted_together Sample.config Sample.routes
              express Sample.publisherRefused boot)
    as [added [Hev [_ Hboth]]].
  cbn [events boot List.app] in Hev. rewrite Hev.
  apply Hboth; reflexivity.
Defined.

(** X8. The listener is started only after the fan-out adapter was made
    from the two connected clients and attached to the event-channel
    server, the one that sits on the HTTP server that then listens; and
    the adapter is made only after both connections are there. *)
Theorem listen_only_after_adapter_attached (config : Config)
    (routes : list RouteSpec) (app : Application) (env : Env) (w : World) :
  exists added,
    events (fst (start config routes app env w)) = events w ++ added
    /\ (forall before httpServer port after,
          added = before ++ Listen httpServer port :: after ->
          exists io adapter pubClient subClient,
            In (NewIoServer io httpServer (ioCorsOptions config)) before
            /\ In (CreateAdapter adapter pubClient subClient) before
            /\ In (IoAdapter io adapter) before)
    /\ (forall before adapter pubClient subClient after,
          added
          = before ++ CreateAdapter adapter pubClient subClient :: after ->
          In (Connected [pubClient; subClient]) before
          /\ connects env pubClient = None
          /\ connects env subClient = None).
Proof.
  unfold start.
  destruct (startServer_stops config (stack config routes app) env w)
    as [w' [Hrun Hev]].
  rewrite Hrun. cbn [fst]. eexists. split; [exact Hev |]. clear Hev Hrun.
  stop_cases; unfold startupEvents, pubClientOf, subClientOf in *;
    (split;
     [ intros before httpServer port after Hsplit;
       pinpoint Hsplit before; inversion Hsplit; subst;
       do 4 eexists; simpl; (split; [| split]);
       repeat (first [left; reflexivity | right])
     | intros before adapter pubClient subClient after Hsplit;
       pinpoint Hsplit before; inversion Hsplit; subst;
       simpl; repeat split; try assumption; tauto ]).
Qed.

Lemma listen_only_after_adapter_witness :
  exists io adapter pubClient subClient,
    In (CreateAdapter adapter pubClient subClient)
       (firstn 10 (events (fst (start Sample.config Sample.routes express
                                  Sample.calm boot))))
    /\ In (IoAdapter io adapter)
          (firstn 10 (events (fst (start Sample.config Sample.routes express
                                     Sample.calm boot)))).
Proof.
  destruct (listen_only_after_adapter_attached Sample.config Sample.routes
              express Sample.calm boot) as [added [Hev [Hlisten _]]].
  cbn [events boot List.app] in Hev.
  destruct (Hlisten (firstn 10 added) 0%nat SERVER_PORT (skipn 11 added))
    as [io [adapter [p [s [_ [Hmade Hattached]]]]]].
  - rewrite <- Hev. reflexivity.
  - exists io, adapter, p, s. rewrite Hev. auto.
Defined.

(** X9. What start-up writes to the log.  When no call throws and both
    connections are made, "Server has started with process" and the
    process id is written before [listen] is called, and "Server running
    on port5000" after it once the port is bound; when the port is taken
    that second line is never written and nothing is logged of it: the
    last event is the uncaught failure.  When a call throws or a
    connection is rejected, the failure is the only entry. *)
Theorem startup_log_lines (config : Config) (routes : list RouteSpec)
    (app : Application) (env : Env) (w : World) :
  let started :=
    Log (LogInfo ("Server has started with process "
                  ++ numberToString (pid env))) in
  let running := Log (LogInfo "Server running on port5000") in
  exists added,
    events (fst (start config routes app env w)) = events w ++ added
    /\ (forall n error,
          failurePoint env w = Some (n, error) ->
          filter isLog added = [Log (LogError error)])
    /\ (failurePoint env w = None -> binds env = None ->
        filter isLog added = [started; running])
    /\ (forall error,
          failurePoint env w = None -> binds env = Some error ->
          filter isLog added = [started] /\ In (Uncaught error) added)
    /\ (forall before httpServer port after,
          added = before ++ Listen httpServer port :: after ->
          filter isLog before = [started]
          /\ after = [match binds env with
                      | None => running
                      | Some error => Uncaught error
                      end]).
Proof.
  cbv zeta. unfold start.
  destruct (startServer_stops config (stack config routes app) env w)
    as [w' [Hrun Hev]].
  rewrite Hrun. cbn [fst]. eexists. split; [exact Hev |]. clear Hev Hrun.
  stop_cases;
    (split;
     [ intros n0 error0 Hpoint;
       first [ discriminate Hpoint
             | injection Hpoint as <- <-; reflexivity ] |]);
    (split;
     [ intros Hnone Hbound;
       first [ discriminate Hnone | discriminate Hbound | reflexivity ] |]);
    (split;
     [ intros error0 Hnone Hbound;
       first [ discriminate Hnone | discriminate Hbound
             | injection Hbound as <-;
               split; [reflexivity |]; simpl; tauto ] |]);
    intros before httpServer port after Hsplit;
    pinpoint Hsplit before; inversion Hsplit; subst;
    split; reflexivity.
Qed.

Lemma startup_log_lines_witness :
  filter isLog
    (events (fst (start Sample.config Sample.routes express
                    Sample.portTaken boot)))
  = [Log (LogInfo "Server has started with process 4242")]
  /\ In (Uncaught Sample.addressInUse)
        (events (fst (start Sample.config Sample.routes express
                        Sample.portTaken boot))).
Proof.
  destruct (startup_log_lines Sample.config Sample.routes express
              Sample.portTaken boot) as [added [Hev [_ [_ [Htaken _]]]]].
  cbn [events boot List.app] in Hev. rewrite Hev.
  apply Htaken; reflexivity.
Defined.



